(** * DevMemArena: the /dev/mem bump allocator of [src/devmem_alloc.h]

    A shallow embedding of the class [DevMemArena] (its three static
    members and its four static member functions) and the properties of
    the arena that follow from it.

    Conventions of the embedding:
    - [size_t] and [uint64_t] values are integers in [0, 2^64); every
      arithmetic operation of the source is written with its wrap-around;
    - a pointer is the 64-bit address it holds, [nullptr] is address 0,
      pointer comparison is comparison of addresses and [char*] arithmetic
      is address arithmetic modulo 2^64;
    - a member function is a computation over the static members which
      either returns or terminates the process ([exit]), and which
      appends the lines it prints to a log;
    - the operating system ([open], [mmap]) is a parameter of [init]. *)

From Stdlib Require Import ZArith List Bool String Lia.
Import ListNotations.

Local Open Scope Z_scope.

(** ** Machine integers and pointers *)

Definition SIZE_BITS : Z := 64.
Definition SIZE_MOD : Z := 2 ^ SIZE_BITS.

(** Reduction of an integer to a [size_t]. *)
Definition wrap (x : Z) : Z := x mod SIZE_MOD.

Definition size_add (x y : Z) : Z := wrap (x + y).
Definition size_sub (x y : Z) : Z := wrap (x - y).
Definition size_mul (x y : Z) : Z := wrap (x * y).
Definition size_not (x : Z) : Z := wrap (Z.lnot x).
Definition size_and (x y : Z) : Z := Z.land x y.

Definition in_size_t (x : Z) : Prop := 0 <= x < SIZE_MOD.

Definition ptr := Z.
Definition nullptr : ptr := 0.
(** [MAP_FAILED] is [(void * ) -1]. *)
Definition MAP_FAILED : ptr := SIZE_MOD - 1.
(** [p + k] for a [char *p] and a [size_t k]. *)
Definition ptr_add (p : ptr) (k : Z) : ptr := wrap (p + k).

(** [static_cast<off_t>(phys_addr)]: a [uint64_t] read as a signed 64-bit
    integer. *)
Definition to_off_t (x : Z) : Z :=
  if x <? 2 ^ (SIZE_BITS - 1) then x else x - SIZE_MOD.

(** The template parameter [T] of [alloc], by what [alloc] reads of it. *)
Record ctype : Type := mk_ctype { sizeof : Z; alignof : Z }.

(** What C++ guarantees of an object type: a positive size, and an
    alignment that is a power of two. *)
Definition valid_type (T : ctype) : Prop :=
  0 < sizeof T < SIZE_MOD /\
  exists k, 0 <= k < SIZE_BITS /\ alignof T = 2 ^ k.

(** ** The static members *)

Record arena : Type := mk_arena { base_ : ptr; size_ : Z; offset_ : Z }.

(** The static member definitions at the end of the header. *)
Definition static_init : arena :=
  {| base_ := nullptr; size_ := 0; offset_ := 0 |}.

Definition set_offset (o : Z) (s : arena) : arena :=
  {| base_ := base_ s; size_ := size_ s; offset_ := o |}.

(** ** Output *)

Inductive stream : Type := stdout | stderr.

(** A line written by the program: a [printf]-family call with its format
    string and its arguments in order, or a [perror] call with its
    prefix. In the format strings a backslash followed by n stands for
    the newline of the source, and [PRIx64] is expanded to lx. *)
Inductive diag : Type :=
| Fprintf (to : stream) (fmt : string) (args : list Z)
| Perror (prefix : string).

(** ** Computations over the arena *)

Inductive outcome (A : Type) : Type :=
| Return (v : A) (s : arena) (out : list diag)
| Exit (status : Z) (s : arena) (out : list diag).
Arguments Return {A} v s out.
Arguments Exit {A} status s out.

Definition M (A : Type) : Type := arena -> outcome A.

Definition ret {A} (v : A) : M A := fun s => Return v s [].

Definition bind {A B} (m : M A) (f : A -> M B) : M B :=
  fun s =>
    match m s with
    | Return v s1 o1 =>
        match f v s1 with
        | Return w s2 o2 => Return w s2 (o1 ++ o2)
        | Exit c s2 o2 => Exit c s2 (o1 ++ o2)
        end
    | Exit c s1 o1 => Exit c s1 o1
    end.

Definition get : M arena := fun s => Return s s [].
Definition put (s' : arena) : M unit := fun _ => Return tt s' [].
Definition emit (d : diag) : M unit := fun s => Return tt s [d].
Definition exit {A} (status : Z) : M A := fun s => Exit status s [].

Declare Scope arena_scope.
Delimit Scope arena_scope with arena.
Notation "x <- m ;; k" := (bind m (fun x => k))
  (at level 61, m at next level, right associativity) : arena_scope.
Notation "m ;; k" := (bind m (fun _ => k))
  (at level 61, right associativity) : arena_scope.
Local Open Scope arena_scope.

(** ** The operating system, as [init] sees it *)

Record os : Type := mk_os {
  (** the descriptor returned by [open("/dev/mem", O_RDWR | O_SYNC)] *)
  os_open : Z;
  (** the address returned by [mmap(nullptr, length, ..., fd, offset)],
      by length and offset *)
  os_mmap : Z -> Z -> ptr
}.

(** What a successful [mmap] guarantees: the mapping is an object of
    [length] bytes of the address space, so that its address is not null
    and the address one past its end is representable. *)
Definition mmap_post (e : os) (phys_addr size : Z) : Prop :=
  let mapped := os_mmap e size (to_off_t phys_addr) in
  mapped <> MAP_FAILED ->
  nullptr < mapped /\ mapped + size < SIZE_MOD.

(** ** The member functions *)

(** [close(fd)] changes nothing of what is modelled and is left out. *)
Definition init (e : os) (phys_addr size : Z) : M unit :=
  s <- get ;;
  if negb (base_ s =? nullptr) then
    emit (Fprintf stderr "DevMemArena::init called twice\n" []) ;;
    ret tt
  else
    let fd := os_open e in
    if fd <? 0 then
      emit (Perror "DevMemArena: open /dev/mem") ;;
      emit (Fprintf stderr
              "  Hint: run as root and boot with iomem=relaxed\n" []) ;;
      exit 1
    else
      let mapped := os_mmap e size (to_off_t phys_addr) in
      if mapped =? MAP_FAILED then
        emit (Perror "DevMemArena: mmap /dev/mem") ;;
        emit (Fprintf stderr "  phys_addr=0x%lx size=%zu\n"
                [phys_addr; size]) ;;
        exit 1
      else
        put {| base_ := mapped; size_ := size; offset_ := 0 |} ;;
        emit (Fprintf stdout
                "DevMemArena: mapped phys 0x%lx (%zu MiB) at virt %p\n"
                [phys_addr; Z.shiftr size 20; mapped]) ;;
        ret tt.

(** The local [cur] of [alloc]. *)
Definition alloc_cur (T : ctype) (s : arena) : Z :=
  let align := alignof T in
  size_and (size_sub (size_add (offset_ s) align) 1)
           (size_not (size_sub align 1)).

(** The local [needed] of [alloc]. *)
Definition alloc_needed (T : ctype) (n : Z) : Z := size_mul n (sizeof T).

Definition alloc (T : ctype) (n : Z) : M ptr :=
  s <- get ;;
  let cur := alloc_cur T s in
  let needed := alloc_needed T n in
  if size_add cur needed >? size_ s then
    emit (Fprintf stderr
            "DevMemArena: out of memory (need %zu, used %zu / %zu)\n"
            [needed; cur; size_ s]) ;;
    exit 1
  else
    put (set_offset (size_add cur needed) s) ;;
    ret (ptr_add (base_ s) cur).

Definition is_arena_ptr (p : ptr) : M bool :=
  s <- get ;;
  let cp := p in
  ret ((cp >=? base_ s) && (cp <? ptr_add (base_ s) (size_ s))).

Definition print_stats : M unit :=
  s <- get ;;
  emit (Fprintf stdout "DevMemArena: used %zu MiB / %zu MiB\n"
          [Z.shiftr (offset_ s) 20; Z.shiftr (size_ s) 20]).

(** [GAPBS_ALLOC(T, n)] requests in program order. *)
Fixpoint alloc_all (reqs : list (ctype * Z)) : M (list ptr) :=
  match reqs with
  | [] => ret []
  | (T, n) :: rest =>
      p <- alloc T n ;;
      ps <- alloc_all rest ;;
      ret (p :: ps)
  end.

(** ** Sequences of calls and reachable states *)

Inductive call : Type :=
| CallInit (e : os) (phys_addr size : Z)
| CallAlloc (T : ctype) (n : Z)
| CallIsArenaPtr (p : ptr)
| CallPrintStats.

(** The static members after a computation that returned; none when the
    process was terminated. *)
Definition state_after {A} (r : outcome A) : option arena :=
  match r with
  | Return _ s _ => Some s
  | Exit _ _ _ => None
  end.

Definition exec (c : call) (s : arena) : option arena :=
  match c with
  | CallInit e phys_addr size => state_after (init e phys_addr size s)
  | CallAlloc T n => state_after (alloc T n s)
  | CallIsArenaPtr p => state_after (is_arena_ptr p s)
  | CallPrintStats => state_after (print_stats s)
  end.

(** Arguments are values of their C++ types, and the operating system
    keeps the contract of [mmap]. *)
Definition call_ok (c : call) : Prop :=
  match c with
  | CallInit e phys_addr size =>
      in_size_t phys_addr /\ in_size_t size /\ mmap_post e phys_addr size
  | CallAlloc T n => valid_type T /\ in_size_t n
  | CallIsArenaPtr p => in_size_t p
  | CallPrintStats => True
  end.

Inductive reachable : arena -> Prop :=
| reach_start : reachable static_init
| reach_step (s s' : arena) (c : call) :
    reachable s -> call_ok c -> exec c s = Some s' -> reachable s'.

(** The mapped region lies in the address space and the cursor in the
    region. *)
Definition arena_ok (s : arena) : Prop :=
  0 <= base_ s /\ 0 <= offset_ s <= size_ s /\
  base_ s + size_ s < SIZE_MOD /\
  (base_ s = nullptr -> size_ s = 0).

(** Calls in program order; none as soon as one terminates the process. *)
Fixpoint exec_all (cs : list call) (s : arena) : option arena :=
  match cs with
  | [] => Some s
  | c :: rest =>
      match exec c s with
      | Some s' => exec_all rest s'
      | None => None
      end
  end.

Definition is_init_call (c : call) : bool :=
  match c with
  | CallInit _ _ _ => true
  | _ => false
  end.

(** ** The arena in the words of the specification *)

(** [c] rounded up to the next multiple of [a]. *)
Definition round_up (c a : Z) : Z := ((c + a - 1) / a) * a.

(** The bytes a request takes from the cursor [c]: its padding and its
    elements. *)
Definition aligned_extent (c : Z) (r : ctype * Z) : Z :=
  (round_up c (alignof (fst r)) - c) + snd r * sizeof (fst r).

(** The offsets at which the requests are placed, from the cursor [c]. *)
Fixpoint spec_starts (c : Z) (reqs : list (ctype * Z)) : list Z :=
  match reqs with
  | [] => []
  | r :: rest => round_up c (alignof (fst r))
                 :: spec_starts (c + aligned_extent c r) rest
  end.

(** The aligned extents of the requests, from the cursor [c]. *)
Fixpoint spec_extents (c : Z) (reqs : list (ctype * Z)) : list Z :=
  match reqs with
  | [] => []
  | r :: rest => aligned_extent c r
                 :: spec_extents (c + aligned_extent c r) rest
  end.

Definition sum (l : list Z) : Z := fold_right Z.add 0 l.

(** A byte range [start, start + len). *)
Definition extent : Type := (Z * Z)%type.
Definition inside (e : extent) (x : Z) : Prop := fst e <= x < fst e + snd e.
Definition disjoint (e1 e2 : extent) : Prop :=
  forall x, ~ (inside e1 x /\ inside e2 x).

(** The byte size of a request, [count] elements of its type. *)
Definition request_bytes (r : ctype * Z) : Z := snd r * sizeof (fst r).

(** The ranges returned for requests: address and byte size. *)
Definition extents_of (ps : list ptr) (reqs : list (ctype * Z)) : list extent :=
  combine ps (map request_bytes reqs).

(** A request of a C++ object type for a count that is not negative. *)
Definition req_ok (r : ctype * Z) : Prop := valid_type (fst r) /\ 0 <= snd r.

(** The most a request can take from the arena: its bytes and the largest
    padding its alignment can ask for. *)
Definition request_budget (r : ctype * Z) : Z :=
  request_bytes r + (alignof (fst r) - 1).

(** [1 << 20], the bytes of a MiB, by which [init] and [print_stats] divide. *)
Definition MiB : Z := 1048576.

(** ** Example element types, mappings and arenas *)

Definition char_t : ctype := {| sizeof := 1; alignof := 1 |}.
Definition int32_t : ctype := {| sizeof := 4; alignof := 4 |}.
Definition int64_t : ctype := {| sizeof := 8; alignof := 8 |}.
(** A type declared [alignas(8192)]. *)
Definition overaligned_t : ctype := {| sizeof := 8192; alignof := 8192 |}.

(** The physical address of the header's build example. *)
Definition example_phys : Z := 0xF00000000.
(** A page-aligned address, as [mmap] returns them. *)
Definition example_base : ptr := 0x7f5a3c001000.
(** A system on which [open] and [mmap] succeed. *)
Definition example_os : os :=
  {| os_open := 3; os_mmap := fun _ _ => example_base |}.
(** The arena mapped at [example_base]. *)
Definition example_arena (size offset : Z) : arena :=
  {| base_ := example_base; size_ := size; offset_ := offset |}.
(** A system on which [open] fails. *)
Definition failing_os : os :=
  {| os_open := -1; os_mmap := fun _ _ => MAP_FAILED |}.

(** ** Arithmetic of [size_t] *)

Lemma SIZE_MOD_pos : 0 < SIZE_MOD.
Proof. reflexivity. Qed.

Lemma wrap_small (x : Z) : 0 <= x < SIZE_MOD -> wrap x = x.
Proof. intros H. unfold wrap. now apply Z.mod_small. Qed.

Lemma wrap_range (x : Z) : 0 <= wrap x < SIZE_MOD.
Proof. unfold wrap. apply Z.mod_pos_bound. exact SIZE_MOD_pos. Qed.

(** Clearing the low [k] bits of a [size_t] with the mask [~(2^k - 1)]. *)
Lemma mask_low_bits (x k : Z) :
  0 <= k < SIZE_BITS -> 0 <= x < SIZE_MOD ->
  size_and x (size_not (size_sub (2 ^ k) 1)) = (x / 2 ^ k) * 2 ^ k.
Proof.
  intros Hk Hx.
  assert (Hp : 0 < 2 ^ k) by (apply Z.pow_pos_nonneg; lia).
  assert (Hle : 2 ^ k < SIZE_MOD)
    by (unfold SIZE_MOD; apply Z.pow_lt_mono_r; lia).
  unfold size_and, size_not, size_sub.
  rewrite (wrap_small (2 ^ k - 1)) by lia.
  replace (2 ^ k - 1) with (Z.ones k) by (rewrite Z.ones_equiv; lia).
  unfold wrap, SIZE_MOD.
  rewrite <- (Z.land_ones (Z.lnot (Z.ones k)) SIZE_BITS) by (unfold SIZE_BITS; lia).
  rewrite (Z.land_comm (Z.lnot _)), Z.land_assoc.
  rewrite (Z.land_ones x SIZE_BITS) by (unfold SIZE_BITS; lia).
  fold SIZE_MOD. rewrite (Z.mod_small x) by lia.
  rewrite <- Z.ldiff_land, Z.ldiff_ones_r by lia.
  now rewrite Z.shiftr_div_pow2, Z.shiftl_mul_pow2 by lia.
Qed.

(** [round_up c a] is the least multiple of [a] that is not below [c]. *)
Lemma round_up_least (c a : Z) :
  0 < a ->
  (a | round_up c a) /\ c <= round_up c a /\
  forall m, (a | m) -> c <= m -> round_up c a <= m.
Proof.
  intros Ha. unfold round_up. repeat split.
  - apply Z.divide_factor_r.
  - pose proof (Z.mul_div_le (c + a - 1) a Ha).
    pose proof (Z.mod_pos_bound (c + a - 1) a Ha).
    pose proof (Z.div_mod (c + a - 1) a). lia.
  - intros m [q ->] Hc.
    apply Z.mul_le_mono_nonneg_r; [lia|].
    assert ((c + a - 1) / a < q + 1); [|lia].
    apply Z.div_lt_upper_bound; lia.
Qed.

Lemma round_up_bounds (c a : Z) :
  0 < a -> c <= round_up c a < c + a.
Proof.
  intros Ha. unfold round_up.
  pose proof (Z.mod_pos_bound (c + a - 1) a Ha).
  pose proof (Z.div_mod (c + a - 1) a). lia.
Qed.

Lemma round_up_aligned (c a : Z) :
  0 < a -> c mod a = 0 -> round_up c a = c.
Proof.
  intros Ha Hc. unfold round_up.
  apply Z.mod_divide in Hc; [|lia]. destruct Hc as [q ->].
  replace (q * a + a - 1) with ((a - 1) + q * a) by lia.
  rewrite Z.div_add by lia. rewrite Z.div_small by lia. lia.
Qed.

(** A rounded cursor that is a [size_t] was computed without wrap-around. *)
Lemma round_up_no_wrap (c k : Z) :
  0 <= k < SIZE_BITS -> 0 <= c -> round_up c (2 ^ k) < SIZE_MOD ->
  c + 2 ^ k - 1 < SIZE_MOD.
Proof.
  intros Hk Hc Hr.
  assert (Hp : 0 < 2 ^ k) by (apply Z.pow_pos_nonneg; lia).
  assert (Hm : SIZE_MOD = 2 ^ (SIZE_BITS - k) * 2 ^ k).
  { unfold SIZE_MOD. rewrite <- Z.pow_add_r by lia. f_equal. lia. }
  unfold round_up in Hr.
  set (q := (c + 2 ^ k - 1) / 2 ^ k) in *.
  pose proof (Z.mod_pos_bound (c + 2 ^ k - 1) (2 ^ k) Hp) as Hb.
  pose proof (Z.div_mod (c + 2 ^ k - 1) (2 ^ k)) as Hd. fold q in Hd.
  assert (q < 2 ^ (SIZE_BITS - k)) by nia.
  nia.
Qed.

(** ** The example element types are valid *)

Lemma valid_char_t : valid_type char_t.
Proof. split; [split; reflexivity | exists 0; split; [|reflexivity]; unfold SIZE_BITS; lia]. Qed.

Lemma valid_int32_t : valid_type int32_t.
Proof. split; [split; reflexivity | exists 2; split; [|reflexivity]; unfold SIZE_BITS; lia]. Qed.

Lemma valid_int64_t : valid_type int64_t.
Proof. split; [split; reflexivity | exists 3; split; [|reflexivity]; unfold SIZE_BITS; lia]. Qed.

Lemma valid_overaligned_t : valid_type overaligned_t.
Proof. split; [split; reflexivity | exists 13; split; [|reflexivity]; unfold SIZE_BITS; lia]. Qed.

(** ** One call of [alloc] *)

Lemma valid_type_align_pos (T : ctype) : valid_type T -> 0 < alignof T.
Proof.
  intros [_ (k & Hk & ->)]. apply Z.pow_pos_nonneg; lia.
Qed.

(** The two branches of [alloc]. *)
Lemma alloc_eq (T : ctype) (n : Z) (s : arena) :
  alloc T n s =
  if size_add (alloc_cur T s) (alloc_needed T n) >? size_ s then
    Exit 1 s [Fprintf stderr
                "DevMemArena: out of memory (need %zu, used %zu / %zu)\n"
                [alloc_needed T n; alloc_cur T s; size_ s]]
  else
    Return (ptr_add (base_ s) (alloc_cur T s))
           (set_offset (size_add (alloc_cur T s) (alloc_needed T n)) s) [].
Proof.
  unfold alloc, bind, get.
  destruct (size_add (alloc_cur T s) (alloc_needed T n) >? size_ s); reflexivity.
Qed.

(** Without wrap-around [cur] is the cursor rounded up. *)
Lemma alloc_cur_round_up (T : ctype) (s : arena) :
  valid_type T -> 0 <= offset_ s ->
  offset_ s + alignof T - 1 < SIZE_MOD ->
  alloc_cur T s = round_up (offset_ s) (alignof T).
Proof.
  intros [_ (k & Hk & Ha)] Ho Hlt. unfold alloc_cur. rewrite Ha in *.
  assert (Hp : 0 < 2 ^ k) by (apply Z.pow_pos_nonneg; lia).
  assert (Hs : size_sub (size_add (offset_ s) (2 ^ k)) 1 = offset_ s + 2 ^ k - 1).
  { unfold size_sub, size_add, wrap. rewrite Zminus_mod_idemp_l.
    apply Z.mod_small. lia. }
  rewrite Hs, mask_low_bits by lia. reflexivity.
Qed.

(** A request that fits is served at the rounded cursor. *)
Lemma alloc_fits (T : ctype) (n : Z) (s : arena) :
  arena_ok s -> valid_type T -> 0 <= n ->
  round_up (offset_ s) (alignof T) + n * sizeof T <= size_ s ->
  alloc_cur T s = round_up (offset_ s) (alignof T) /\
  alloc_needed T n = n * sizeof T /\
  alloc T n s =
    Return (base_ s + round_up (offset_ s) (alignof T))
           (set_offset (round_up (offset_ s) (alignof T) + n * sizeof T) s) [].
Proof.
  intros (Hb & Ho & Hs & _) HT Hn Hfit.
  pose proof (valid_type_align_pos T HT) as Ha.
  pose proof (round_up_bounds (offset_ s) (alignof T) Ha) as Hr.
  assert (Hsz : 0 <= n * sizeof T) by (destruct HT as [? _]; nia).
  assert (Hcur : alloc_cur T s = round_up (offset_ s) (alignof T)).
  { apply alloc_cur_round_up; [assumption | lia |].
    destruct HT as [_ (k & Hk & Hk')]. rewrite Hk' in *.
    apply round_up_no_wrap; lia. }
  assert (Hneed : alloc_needed T n = n * sizeof T).
  { unfold alloc_needed, size_mul. apply wrap_small. lia. }
  repeat split; try assumption.
  rewrite alloc_eq, Hcur, Hneed.
  unfold size_add, ptr_add. rewrite !wrap_small by lia.
  destruct (Z.gtb_spec (round_up (offset_ s) (alignof T) + n * sizeof T) (size_ s)).
  - lia.
  - reflexivity.
Qed.

(** ** Reachable states *)

Lemma reachable_ok (s : arena) : reachable s -> arena_ok s.
Proof.
  induction 1 as [|s s' c _ IH Hc Hex].
  - unfold arena_ok, static_init, nullptr, SIZE_MOD; simpl. lia.
  - destruct IH as (Hb & Ho & Hs & Hn).
    destruct c as [e pa sz | T n | p |]; simpl in Hex.
    + unfold init, bind, get in Hex.
      destruct (base_ s =? nullptr); simpl in Hex.
      * destruct (os_open e <? 0); simpl in Hex; [discriminate|].
        destruct (Z.eqb_spec (os_mmap e sz (to_off_t pa)) MAP_FAILED) as [|Hm];
          simpl in Hex; [discriminate|].
        injection Hex as <-.
        destruct Hc as (_ & Hsz & Hpost). unfold in_size_t in Hsz.
        destruct (Hpost Hm) as [Hnn Hend].
        unfold arena_ok, nullptr in *; simpl. lia.
      * injection Hex as <-. unfold arena_ok. tauto.
    + rewrite alloc_eq in Hex.
      destruct (Z.gtb_spec (size_add (alloc_cur T s) (alloc_needed T n)) (size_ s));
        simpl in Hex; [discriminate|].
      injection Hex as <-.
      pose proof (wrap_range (alloc_cur T s + alloc_needed T n)).
      unfold arena_ok, set_offset, size_add in *; simpl. lia.
    + injection Hex as <-. unfold arena_ok. tauto.
    + injection Hex as <-. unfold arena_ok. tauto.
Qed.

(** Every call leaves the cursor within the capacity, whatever its
    arguments and whatever the arithmetic did. *)
Lemma exec_cursor_in_capacity (c : call) (s s' : arena) :
  0 <= offset_ s <= size_ s -> in_size_t (size_ s) ->
  (forall e pa sz, c = CallInit e pa sz -> in_size_t sz) ->
  exec c s = Some s' ->
  0 <= offset_ s' <= size_ s'.
Proof.
  intros Ho Hs Hc Hex.
  destruct c as [e pa sz | T n | p |]; simpl in Hex.
  - unfold init, bind, get in Hex.
    destruct (base_ s =? nullptr); simpl in Hex.
    + destruct (os_open e <? 0); simpl in Hex; [discriminate|].
      destruct (os_mmap e sz (to_off_t pa) =? MAP_FAILED);
        simpl in Hex; [discriminate|].
      injection Hex as <-. simpl.
      specialize (Hc e pa sz eq_refl). unfold in_size_t in Hc. lia.
    + injection Hex as <-. assumption.
  - rewrite alloc_eq in Hex.
    destruct (Z.gtb_spec (size_add (alloc_cur T s) (alloc_needed T n)) (size_ s));
      simpl in Hex; [discriminate|].
    injection Hex as <-.
    pose proof (wrap_range (alloc_cur T s + alloc_needed T n)).
    unfold set_offset, size_add in *; simpl. lia.
  - injection Hex as <-. assumption.
  - injection Hex as <-. assumption.
Qed.

(** Once [base_] is set no call changes the mapping. *)
Lemma exec_keeps_mapping (c : call) (s s' : arena) :
  base_ s <> nullptr -> exec c s = Some s' ->
  base_ s' = base_ s /\ size_ s' = size_ s.
Proof.
  intros Hb Hex.
  destruct c as [e pa sz | T n | p |]; simpl in Hex.
  - unfold init, bind, get in Hex.
    destruct (Z.eqb_spec (base_ s) nullptr); [contradiction|].
    simpl in Hex. injection Hex as <-. split; reflexivity.
  - rewrite alloc_eq in Hex.
    destruct (size_add (alloc_cur T s) (alloc_needed T n) >? size_ s);
      simpl in Hex; [discriminate|].
    injection Hex as <-. split; reflexivity.
  - injection Hex as <-. split; reflexivity.
  - injection Hex as <-. split; reflexivity.
Qed.

Lemma exec_all_keeps_mapping (cs : list call) (s s' : arena) :
  base_ s <> nullptr -> exec_all cs s = Some s' ->
  base_ s' = base_ s /\ size_ s' = size_ s.
Proof.
  revert s. induction cs as [|c cs IH]; intros s Hb Hex; simpl in Hex.
  - injection Hex as <-. split; reflexivity.
  - destruct (exec c s) as [s1|] eqn:E; [|discriminate].
    destruct (exec_keeps_mapping c s s1 Hb E) as [Hb1 Hs1].
    destruct (IH s1) as [Hb2 Hs2]; [congruence | assumption |].
    split; congruence.
Qed.

(** Before [init] no call changes the static members. *)
Lemma exec_before_init (c : call) (s' : arena) :
  is_init_call c = false -> exec c static_init = Some s' -> s' = static_init.
Proof.
  intros Hc Hex.
  destruct c as [e pa sz | T n | p |]; simpl in Hex; try discriminate.
  - rewrite alloc_eq in Hex.
    destruct (Z.gtb_spec (size_add (alloc_cur T static_init) (alloc_needed T n))
                         (size_ static_init)) as [|Hle];
      simpl in Hex; [discriminate|].
    injection Hex as <-.
    pose proof (wrap_range (alloc_cur T static_init + alloc_needed T n)) as Hw.
    unfold size_add in *. change (size_ static_init) with 0 in Hle.
    assert (Hz : wrap (alloc_cur T static_init + alloc_needed T n) = 0) by lia.
    rewrite Hz. reflexivity.
  - now injection Hex as <-.
  - now injection Hex as <-.
Qed.

Lemma exec_all_before_init (cs : list call) (s' : arena) :
  forallb (fun c => negb (is_init_call c)) cs = true ->
  exec_all cs static_init = Some s' -> s' = static_init.
Proof.
  induction cs as [|c cs IH]; simpl; intros Hcs Hex.
  - now injection Hex as <-.
  - apply andb_prop in Hcs as [Hc Hcs]. apply negb_true_iff in Hc.
    destruct (exec c static_init) as [s1|] eqn:E; [|discriminate].
    apply exec_before_init in E; [|assumption]. subst s1. now apply IH.
Qed.

(** ** [is_arena_ptr] *)

Lemma is_arena_ptr_eq (p : ptr) (s : arena) :
  is_arena_ptr p s =
  Return ((p >=? base_ s) && (p <? ptr_add (base_ s) (size_ s))) s [].
Proof. reflexivity. Qed.

(** When the end of the mapping is an address, the test is membership in
    the mapping. *)
Lemma is_arena_ptr_range (p : ptr) (s : arena) :
  0 <= base_ s + size_ s < SIZE_MOD ->
  ((p >=? base_ s) && (p <? ptr_add (base_ s) (size_ s)) = true <->
   base_ s <= p < base_ s + size_ s).
Proof.
  intros Hs. unfold ptr_add.
  rewrite wrap_small by lia.
  rewrite andb_true_iff, Z.geb_le, Z.ltb_lt. lia.
Qed.

Lemma arena_ok_mapping (s : arena) :
  arena_ok s -> 0 <= base_ s + size_ s < SIZE_MOD.
Proof. intros (Hb & Ho & Hs & _). lia. Qed.

(** ** [init] *)

(** [init] on an initialised arena. *)
Lemma init_again (e : os) (phys_addr size : Z) (s : arena) :
  base_ s <> nullptr ->
  init e phys_addr size s =
  Return tt s [Fprintf stderr "DevMemArena::init called twice\n" []].
Proof.
  intros Hb. unfold init, bind, get.
  destruct (Z.eqb_spec (base_ s) nullptr); [contradiction|]. reflexivity.
Qed.

(** An [init] that returns leaves the arena initialised. *)
Lemma init_returns_initialised (e : os) (phys_addr size : Z)
      (s s' : arena) (out : list diag) :
  mmap_post e phys_addr size ->
  init e phys_addr size s = Return tt s' out ->
  base_ s' <> nullptr.
Proof.
  intros Hpost Hinit. unfold init, bind, get in Hinit.
  destruct (Z.eqb_spec (base_ s) nullptr) as [|Hb]; simpl in Hinit.
  - destruct (os_open e <? 0); simpl in Hinit; [discriminate|].
    destruct (Z.eqb_spec (os_mmap e size (to_off_t phys_addr)) MAP_FAILED)
      as [|Hm]; simpl in Hinit; [discriminate|].
    injection Hinit as <- _. simpl.
    destruct (Hpost Hm) as [Hnn _]. unfold nullptr in *. lia.
  - injection Hinit as <- _. assumption.
Qed.

(** ** Sequences of requests *)

Lemma aligned_extent_bounds (c : Z) (r : ctype * Z) :
  req_ok r ->
  0 <= round_up c (alignof (fst r)) - c /\ 0 <= request_bytes r /\
  c + aligned_extent c r = round_up c (alignof (fst r)) + request_bytes r.
Proof.
  intros [HT Hn]. unfold aligned_extent, request_bytes.
  pose proof (round_up_bounds c _ (valid_type_align_pos _ HT)).
  destruct HT as [Hs _]. repeat split; nia.
Qed.

Lemma spec_extents_nonneg (reqs : list (ctype * Z)) (c : Z) :
  Forall req_ok reqs -> 0 <= sum (spec_extents c reqs).
Proof.
  intros H. revert c. induction H as [|r reqs Hr _ IH]; intros c; simpl.
  - lia.
  - pose proof (aligned_extent_bounds c r Hr). specialize (IH (c + aligned_extent c r)).
    lia.
Qed.

(** Requests that fit together are served at the offsets of the
    specification, and move the cursor by the sum of their extents. *)
Lemma alloc_all_fits (reqs : list (ctype * Z)) (s : arena) :
  arena_ok s -> Forall req_ok reqs ->
  offset_ s + sum (spec_extents (offset_ s) reqs) <= size_ s ->
  alloc_all reqs s =
    Return (map (Z.add (base_ s)) (spec_starts (offset_ s) reqs))
           (set_offset (offset_ s + sum (spec_extents (offset_ s) reqs)) s) [].
Proof.
  intros Hok Hreqs. revert s Hok.
  induction Hreqs as [|[T n] reqs Hr Hreqs IH]; intros s Hok Hfit.
  - simpl. unfold ret. rewrite Z.add_0_r. destruct s; reflexivity.
  - simpl in Hfit |- *.
    pose proof (aligned_extent_bounds (offset_ s) (T, n) Hr) as (Hpad & Hby & Heq).
    pose proof (spec_extents_nonneg reqs (offset_ s + aligned_extent (offset_ s) (T, n)) Hreqs).
    unfold request_bytes in *. simpl in *.
    destruct Hr as [HT Hn]. simpl in HT, Hn.
    destruct (alloc_fits T n s Hok HT Hn) as (_ & _ & Ha); [lia|].
    set (s1 := set_offset (round_up (offset_ s) (alignof T) + n * sizeof T) s) in *.
    assert (Hok1 : arena_ok s1).
    { destruct Hok as (Hb & Ho & Hs & Hnull).
      unfold arena_ok, s1, set_offset; simpl. repeat split; try assumption; lia. }
    assert (Ho1 : offset_ s1 = offset_ s + aligned_extent (offset_ s) (T, n))
      by (unfold s1; simpl; lia).
    specialize (IH s1 Hok1). rewrite Ho1 in IH.
    change (size_ s1) with (size_ s) in IH.
    unfold bind at 1. rewrite Ha.
    unfold bind at 1. rewrite IH by lia.
    unfold ret, s1, set_offset; simpl.
    do 2 f_equal. lia.
Qed.

(** The returned addresses are aligned relative to [base_], and
    absolutely when [base_] is. *)
Lemma returned_aligned (reqs : list (ctype * Z)) (b c : Z) :
  Forall req_ok reqs ->
  Forall2 (fun p r => (alignof (fst r) | p - b) /\
                      ((alignof (fst r) | b) -> (alignof (fst r) | p)))
          (map (Z.add b) (spec_starts c reqs)) reqs.
Proof.
  intros H. revert c. induction H as [|r reqs [HT _] _ IH]; intros c; simpl.
  - constructor.
  - constructor; [|apply IH].
    destruct (round_up_least c (alignof (fst r)) (valid_type_align_pos _ HT))
      as (Hdiv & _).
    split.
    + now replace (b + round_up c (alignof (fst r)) - b)
        with (round_up c (alignof (fst r))) by lia.
    + intros Hb. now apply Z.divide_add_r.
Qed.

(** Each returned range lies between the cursor before and the cursor
    after the requests. *)
Lemma extents_within (reqs : list (ctype * Z)) (b c : Z) :
  Forall req_ok reqs ->
  Forall (fun e => b + c <= fst e /\
                   fst e + snd e <= b + (c + sum (spec_extents c reqs)))
         (extents_of (map (Z.add b) (spec_starts c reqs)) reqs).
Proof.
  intros H. revert c. induction H as [|r reqs Hr Hreqs IH]; intros c.
  - constructor.
  - unfold extents_of in *. simpl.
    pose proof (aligned_extent_bounds c r Hr) as (Hpad & Hby & Heq).
    pose proof (spec_extents_nonneg reqs (c + aligned_extent c r) Hreqs).
    constructor.
    + simpl. lia.
    + eapply Forall_impl; [|apply IH]. simpl. intros e [? ?]. lia.
Qed.

(** The returned ranges follow each other without overlap. *)
Lemma extents_disjoint (reqs : list (ctype * Z)) (b c : Z) :
  Forall req_ok reqs ->
  ForallOrdPairs disjoint
    (extents_of (map (Z.add b) (spec_starts c reqs)) reqs).
Proof.
  intros H. revert c. induction H as [|r reqs Hr Hreqs IH]; intros c.
  - constructor.
  - pose proof (aligned_extent_bounds c r Hr) as (Hpad & Hby & Heq).
    unfold extents_of in *. simpl. constructor; [|apply IH].
    eapply Forall_impl; [|apply (extents_within reqs b (c + aligned_extent c r) Hreqs)].
    intros e [Hlo _] x [[_ Hx1] [Hx2 _]]. simpl in *. lia.
Qed.

(** ** [alloc] at the limit of the arena *)

(** Without wrap-around a request beyond the capacity terminates the
    process, with the static members as they were. *)
Lemma alloc_exhausted (T : ctype) (n : Z) (s : arena) :
  arena_ok s -> valid_type T -> 0 <= n ->
  round_up (offset_ s) (alignof T) + n * sizeof T < SIZE_MOD ->
  size_ s < round_up (offset_ s) (alignof T) + n * sizeof T ->
  alloc T n s =
    Exit 1 s [Fprintf stderr
                "DevMemArena: out of memory (need %zu, used %zu / %zu)\n"
                [n * sizeof T; round_up (offset_ s) (alignof T); size_ s]].
Proof.
  intros (Hb & Ho & Hs & _) HT Hn Hlt Hgt.
  pose proof (valid_type_align_pos T HT) as Ha.
  pose proof (round_up_bounds (offset_ s) (alignof T) Ha) as Hr.
  assert (Hsz : 0 <= n * sizeof T) by (destruct HT as [? _]; nia).
  assert (Hcur : alloc_cur T s = round_up (offset_ s) (alignof T)).
  { apply alloc_cur_round_up; [assumption | lia |].
    destruct HT as [_ (k & Hk & Hk')]. rewrite Hk' in *.
    apply round_up_no_wrap; lia. }
  assert (Hneed : alloc_needed T n = n * sizeof T).
  { unfold alloc_needed, size_mul. apply wrap_small. lia. }
  rewrite alloc_eq, Hcur, Hneed. unfold size_add. rewrite wrap_small by lia.
  destruct (Z.gtb_spec (round_up (offset_ s) (alignof T) + n * sizeof T) (size_ s)).
  - reflexivity.
  - lia.
Qed.

(** [alloc] terminates the process exactly when the wrapped sum exceeds
    the capacity, and then leaves the static members as they were. *)
Lemma alloc_exit_iff (T : ctype) (n : Z) (s : arena) :
  (exists c s' out, alloc T n s = Exit c s' out) <->
  size_add (alloc_cur T s) (alloc_needed T n) > size_ s.
Proof.
  rewrite alloc_eq.
  destruct (Z.gtb_spec (size_add (alloc_cur T s) (alloc_needed T n)) (size_ s)).
  - split; [lia | intros _; eauto].
  - split; [intros (c & s' & out & Hex); discriminate | lia].
Qed.

Lemma alloc_exit_unchanged (T : ctype) (n : Z) (s s' : arena)
      (c : Z) (out : list diag) :
  alloc T n s = Exit c s' out ->
  c = 1 /\ s' = s /\
  out = [Fprintf stderr
           "DevMemArena: out of memory (need %zu, used %zu / %zu)\n"
           [alloc_needed T n; alloc_cur T s; size_ s]].
Proof.
  rewrite alloc_eq.
  destruct (size_add (alloc_cur T s) (alloc_needed T n) >? size_ s);
    [|discriminate].
  intros H. inversion H. repeat split.
Qed.

(** As long as the arithmetic of a request does not wrap around, [alloc]
    terminates the process exactly when the request exceeds the capacity. *)
Lemma alloc_exit_iff_without_wrap (T : ctype) (n : Z) (s : arena) :
  arena_ok s -> valid_type T -> 0 <= n ->
  round_up (offset_ s) (alignof T) + n * sizeof T < SIZE_MOD ->
  ((exists c s' out, alloc T n s = Exit c s' out) <->
   round_up (offset_ s) (alignof T) + n * sizeof T > size_ s).
Proof.
  intros Hok HT Hn Hnw.
  destruct (Z_le_gt_dec (round_up (offset_ s) (alignof T) + n * sizeof T) (size_ s))
    as [Hfit|Hover].
  - destruct (alloc_fits T n s Hok HT Hn Hfit) as (_ & _ & Ha).
    rewrite Ha. split; [intros (c & s' & out & Hex); discriminate | lia].
  - rewrite alloc_exhausted by (assumption || lia).
    split; [intros _; assumption | intros _; eauto].
Qed.

(** As long as the arithmetic of a request does not wrap around, no call
    moves the cursor back. *)
Lemma cursor_monotone_without_wrap (c : call) (s s' : arena) :
  arena_ok s -> call_ok c ->
  (forall T n, c = CallAlloc T n ->
               round_up (offset_ s) (alignof T) + n * sizeof T < SIZE_MOD) ->
  exec c s = Some s' ->
  offset_ s <= offset_ s'.
Proof.
  intros Hok Hc Hnw Hex.
  destruct c as [e pa sz | T n | p |]; simpl in Hex.
  - unfold init, bind, get in Hex.
    destruct (Z.eqb_spec (base_ s) nullptr) as [Hb|]; simpl in Hex.
    + destruct (os_open e <? 0); simpl in Hex; [discriminate|].
      destruct (os_mmap e sz (to_off_t pa) =? MAP_FAILED);
        simpl in Hex; [discriminate|].
      injection Hex as <-. simpl.
      destruct Hok as (_ & Ho & _ & Hnull). specialize (Hnull Hb). lia.
    + injection Hex as <-. lia.
  - destruct Hc as [HT [Hn _]]. specialize (Hnw T n eq_refl).
    pose proof (valid_type_align_pos T HT) as Ha.
    pose proof (round_up_bounds (offset_ s) (alignof T) Ha) as Hr.
    assert (Hsz : 0 <= n * sizeof T) by (destruct HT as [? _]; nia).
    destruct (Z_le_gt_dec (round_up (offset_ s) (alignof T) + n * sizeof T) (size_ s))
      as [Hfit|Hover].
    + destruct (alloc_fits T n s Hok HT Hn Hfit) as (_ & _ & Ha').
      rewrite Ha' in Hex. injection Hex as <-. simpl. lia.
    + rewrite alloc_exhausted in Hex by (assumption || lia). discriminate.
  - injection Hex as <-. lia.
  - injection Hex as <-. lia.
Qed.

(** ** The example arenas are reachable *)

Lemma example_arena_ok (size offset : Z) :
  0 <= offset <= size -> example_base + size < SIZE_MOD ->
  arena_ok (example_arena size offset).
Proof.
  intros Ho Hs. unfold arena_ok, example_arena; cbn [base_ size_ offset_].
  repeat split; try lia.
  - unfold example_base. lia.
  - unfold example_base, nullptr. lia.
Qed.

Lemma example_arena_reachable (size : Z) :
  in_size_t size -> example_base + size < SIZE_MOD ->
  reachable (example_arena size 0).
Proof.
  intros Hsz Hend.
  apply (reach_step static_init _ (CallInit example_os example_phys size)).
  - apply reach_start.
  - split; [|split].
    + unfold in_size_t, example_phys, SIZE_MOD, SIZE_BITS. lia.
    + assumption.
    + unfold mmap_post. cbv zeta. intros _. split; [reflexivity | exact Hend].
  - reflexivity.
Qed.

Lemma example_arena_1024_reachable : reachable (example_arena 1024 0).
Proof.
  apply example_arena_reachable; unfold in_size_t, example_base, SIZE_MOD, SIZE_BITS;
    lia.
Qed.

Lemma example_arena_1024_80_reachable : reachable (example_arena 1024 80).
Proof.
  apply (reach_step (example_arena 1024 0) _ (CallAlloc int64_t 10)).
  - exact example_arena_1024_reachable.
  - split; [exact valid_int64_t | unfold in_size_t, SIZE_MOD, SIZE_BITS; lia].
  - vm_compute. reflexivity.
Qed.

Lemma example_arena_1024_full_reachable : reachable (example_arena 1024 1024).
Proof.
  apply (reach_step (example_arena 1024 0) _ (CallAlloc char_t 1024)).
  - exact example_arena_1024_reachable.
  - split; [exact valid_char_t | unfold in_size_t, SIZE_MOD, SIZE_BITS; lia].
  - vm_compute. reflexivity.
Qed.

(** ** Properties of the arena *)

(** C1: [alloc<T>(n)] on an arena whose mapping lies in the address space
    takes [aligned_start], the cursor rounded up to the next multiple of
    the alignment of [T] (a multiple of the alignment, not below the
    cursor and less than one alignment above it), and [needed], [n] times
    the size of [T]. When [aligned_start + needed <= size_], the locals
    [cur] and [needed] of the code hold exactly these values, the cursor
    becomes [aligned_start + needed], nothing is printed and the address
    [base_ + aligned_start] is returned. *)
Theorem alloc_serves_fitting_request (T : ctype) (n : Z) (s : arena) :
  arena_ok s -> valid_type T -> 0 <= n ->
  round_up (offset_ s) (alignof T) + n * sizeof T <= size_ s ->
  ((alignof T | round_up (offset_ s) (alignof T)) /\
   offset_ s <= round_up (offset_ s) (alignof T) < offset_ s + alignof T) /\
  alloc_cur T s = round_up (offset_ s) (alignof T) /\
  alloc_needed T n = n * sizeof T /\
  alloc T n s =
    Return (base_ s + round_up (offset_ s) (alignof T))
           (set_offset (round_up (offset_ s) (alignof T) + n * sizeof T) s) [].
Proof.
  intros Hok HT Hn Hfit. split.
  - pose proof (valid_type_align_pos T HT) as Ha. split.
    + apply round_up_least; assumption.
    + apply round_up_bounds; assumption.
  - apply alloc_fits; assumption.
Qed.

(** The second scenario of the specification: after two one-byte
    allocations the cursor is 2, and an 8-byte-aligned element is placed at
    [base_ + 8]. *)
Lemma alloc_serves_fitting_request_witness :
  arena_ok (example_arena 1024 2) /\
  alloc int64_t 1 (example_arena 1024 2) =
    Return (example_base + 8) (example_arena 1024 16) [].
Proof.
  assert (Hok : arena_ok (example_arena 1024 2)).
  { apply example_arena_ok; unfold example_base, SIZE_MOD, SIZE_BITS; lia. }
  split; [exact Hok|].
  refine (proj2 (proj2 (proj2
    (alloc_serves_fitting_request int64_t 1 (example_arena 1024 2)
       Hok valid_int64_t _ _)))).
  - lia.
  - vm_compute. discriminate.
Defined.

(** C2: the claim does not hold of the code. A request for 2^61 elements
    of an 8-byte type is a request for 2^64 bytes, far beyond the capacity of
    1024, yet [needed] wraps around to 0 and [alloc] returns a pointer
    instead of terminating the process. *)
Theorem alloc_oversized_request_returns :
  reachable (example_arena 1024 0) /\
  valid_type int64_t /\ in_size_t (2 ^ 61) /\
  round_up (offset_ (example_arena 1024 0)) (alignof int64_t)
    + 2 ^ 61 * sizeof int64_t > size_ (example_arena 1024 0) /\
  alloc int64_t (2 ^ 61) (example_arena 1024 0) =
    Return example_base (example_arena 1024 0) [].
Proof.
  split; [exact example_arena_1024_reachable|].
  split; [exact valid_int64_t|].
  split; [unfold in_size_t, SIZE_MOD, SIZE_BITS; lia|].
  split; [vm_compute; reflexivity|].
  vm_compute. reflexivity.
Qed.

(** C3: the claim does not hold of the code. With the cursor at 80, a
    request for 2^61 - 1 elements of an 8-byte type makes [cur + needed]
    wrap around to 72: [alloc] returns and the cursor has moved back from 80
    to 72. *)
Theorem alloc_wrapped_request_moves_cursor_back :
  reachable (example_arena 1024 80) /\
  valid_type int64_t /\ in_size_t (2 ^ 61 - 1) /\
  alloc int64_t (2 ^ 61 - 1) (example_arena 1024 80) =
    Return (example_base + 80) (example_arena 1024 72) [] /\
  offset_ (example_arena 1024 72) < offset_ (example_arena 1024 80).
Proof.
  split; [exact example_arena_1024_80_reachable|].
  split; [exact valid_int64_t|].
  split; [unfold in_size_t, SIZE_MOD, SIZE_BITS; lia|].
  split; [vm_compute; reflexivity|].
  vm_compute. reflexivity.
Qed.

(** What holds of C3: in every reachable state the cursor lies between 0
    and the capacity. *)
Lemma reachable_cursor_in_capacity (s : arena) :
  reachable s -> 0 <= offset_ s <= size_ s.
Proof. intros H. apply reachable_ok in H. apply H. Qed.

(** C4, as stated, fails on the alignment of the addresses: [alloc] aligns
    the offset from [base_], not the address. The mapping below is
    page-aligned; a request for one element of a type of alignment 8192
    fits in its 16384 bytes and is served at [base_] itself, which is not
    a multiple of 8192. *)
Lemma alloc_all_address_alignment_counterexample :
  ~ (forall (reqs : list (ctype * Z)) (s s' : arena)
            (ps : list ptr) (out : list diag),
       reachable s -> Forall req_ok reqs ->
       offset_ s + sum (spec_extents (offset_ s) reqs) <= size_ s ->
       alloc_all reqs s = Return ps s' out ->
       Forall2 (fun p r => (alignof (fst r) | p)) ps reqs).
Proof.
  intros H.
  specialize (H [(overaligned_t, 1)] (example_arena 16384 0)
                (example_arena 16384 8192) [example_base] []).
  assert (Hal : Forall2 (fun p r => (alignof (fst r) | p))
                        [example_base] [(overaligned_t, 1)]).
  { apply H.
    - apply example_arena_reachable;
        unfold in_size_t, example_base, SIZE_MOD, SIZE_BITS; lia.
    - constructor; [|constructor].
      split; [exact valid_overaligned_t | simpl; lia].
    - vm_compute. discriminate.
    - vm_compute. reflexivity. }
  inversion Hal as [|? ? ? ? Hdiv _]; subst.
  apply Z.mod_divide in Hdiv; [|simpl; lia].
  vm_compute in Hdiv. discriminate.
Qed.

(** C4, amended: requests that collectively fit within the capacity are
    all served and nothing is printed. Every returned address is a
    multiple of its alignment relative to [base_], hence a multiple of its
    alignment whenever [base_] is. The returned ranges are pairwise
    disjoint, lie between the cursor before and the cursor after the
    requests, and are disjoint from the unused region that starts at the
    final cursor. The final cursor is the initial cursor plus the sum of
    the aligned extents; from an empty arena it is that sum. *)
Theorem alloc_all_layout (reqs : list (ctype * Z)) (s : arena) :
  arena_ok s -> Forall req_ok reqs ->
  offset_ s + sum (spec_extents (offset_ s) reqs) <= size_ s ->
  exists (ps : list ptr) (s' : arena),
    alloc_all reqs s = Return ps s' [] /\
    base_ s' = base_ s /\ size_ s' = size_ s /\
    offset_ s' = offset_ s + sum (spec_extents (offset_ s) reqs) /\
    Forall2 (fun p r => (alignof (fst r) | p - base_ s) /\
                        ((alignof (fst r) | base_ s) -> (alignof (fst r) | p)))
            ps reqs /\
    ForallOrdPairs disjoint (extents_of ps reqs) /\
    Forall (fun e => base_ s + offset_ s <= fst e /\
                     fst e + snd e <= base_ s + offset_ s')
           (extents_of ps reqs) /\
    Forall (fun e => disjoint e (base_ s + offset_ s', size_ s - offset_ s'))
           (extents_of ps reqs).
Proof.
  intros Hok Hreqs Hfit.
  exists (map (Z.add (base_ s)) (spec_starts (offset_ s) reqs)).
  exists (set_offset (offset_ s + sum (spec_extents (offset_ s) reqs)) s).
  pose proof (extents_within reqs (base_ s) (offset_ s) Hreqs) as Hin.
  repeat split.
  - now apply alloc_all_fits.
  - now apply returned_aligned.
  - now apply extents_disjoint.
  - exact Hin.
  - eapply Forall_impl; [|exact Hin].
    intros e [_ Hhi] x [[_ Hx1] [Hx2 _]]. simpl in *. lia.
Qed.

(** The first scenario of the specification: in an empty arena of 1024
    bytes, ten 8-byte elements and then one 4-byte element. *)
Lemma alloc_all_layout_witness :
  exists (ps : list ptr) (s' : arena),
    alloc_all [(int64_t, 10); (int32_t, 1)] (example_arena 1024 0)
      = Return ps s' [] /\
    base_ s' = example_base /\ size_ s' = 1024 /\
    offset_ s' = 0 + sum (spec_extents 0 [(int64_t, 10); (int32_t, 1)]) /\
    Forall2 (fun p r => (alignof (fst r) | p - example_base) /\
                        ((alignof (fst r) | example_base) ->
                         (alignof (fst r) | p)))
            ps [(int64_t, 10); (int32_t, 1)] /\
    ForallOrdPairs disjoint (extents_of ps [(int64_t, 10); (int32_t, 1)]) /\
    Forall (fun e => example_base + 0 <= fst e /\
                     fst e + snd e <= example_base + offset_ s')
           (extents_of ps [(int64_t, 10); (int32_t, 1)]) /\
    Forall (fun e => disjoint e (example_base + offset_ s', 1024 - offset_ s'))
           (extents_of ps [(int64_t, 10); (int32_t, 1)]).
Proof.
  apply (alloc_all_layout [(int64_t, 10); (int32_t, 1)] (example_arena 1024 0)).
  - apply example_arena_ok; unfold example_base, SIZE_MOD, SIZE_BITS; lia.
  - constructor; [split; [exact valid_int64_t | simpl; lia]|].
    constructor; [split; [exact valid_int32_t | simpl; lia]|].
    constructor.
  - vm_compute. discriminate.
Defined.

(** C5: on an arena whose mapping lies in the address space,
    [is_arena_ptr(p)] returns true exactly when [p] lies in
    [base_, base_ + size_); it prints nothing and leaves the static members
    as they were. *)
Theorem is_arena_ptr_iff_in_mapping (p : ptr) (s : arena) :
  arena_ok s ->
  exists b : bool,
    is_arena_ptr p s = Return b s [] /\
    (b = true <-> base_ s <= p < base_ s + size_ s).
Proof.
  intros Hok. eexists. split.
  - apply is_arena_ptr_eq.
  - apply is_arena_ptr_range, arena_ok_mapping, Hok.
Qed.

Lemma is_arena_ptr_iff_in_mapping_witness :
  exists b : bool,
    is_arena_ptr (example_base + 5) (example_arena 1024 84)
      = Return b (example_arena 1024 84) [] /\
    (b = true <-> example_base <= example_base + 5 < example_base + 1024).
Proof.
  apply (is_arena_ptr_iff_in_mapping (example_base + 5) (example_arena 1024 84)).
  apply example_arena_ok; unfold example_base, SIZE_MOD, SIZE_BITS; lia.
Defined.

(** C6, as stated, fails for a request of zero bytes on a full arena:
    [alloc<char>(0)] with the cursor at the capacity returns
    [base_ + size_], the address one past the end of the mapping, for
    which [is_arena_ptr] returns false. *)
Lemma zero_length_allocation_counterexample :
  ~ (forall (T : ctype) (n : Z) (s s' : arena) (p : ptr) (out : list diag),
       reachable s -> valid_type T -> in_size_t n ->
       alloc T n s = Return p s' out ->
       is_arena_ptr p s' = Return true s' []).
Proof.
  intros H.
  specialize (H char_t 0 (example_arena 1024 1024) (example_arena 1024 1024)
                (example_base + 1024) []
                example_arena_1024_full_reachable valid_char_t).
  assert (Hc : is_arena_ptr (example_base + 1024) (example_arena 1024 1024)
               = Return true (example_arena 1024 1024) []).
  { apply H.
    - unfold in_size_t, SIZE_MOD, SIZE_BITS. lia.
    - vm_compute. reflexivity. }
  vm_compute in Hc. discriminate.
Qed.

(** C6, amended: when a request of at least one byte fits within the
    capacity, [is_arena_ptr] returns true for the returned pointer and for
    every address of the returned range, also after any later calls; and
    it returns false for every address outside [base_, base_ + size_). *)
Theorem allocation_stays_in_arena (T : ctype) (n : Z) (s s1 s2 : arena)
        (p : ptr) (out : list diag) (cs : list call) :
  arena_ok s -> valid_type T -> 0 < n ->
  round_up (offset_ s) (alignof T) + n * sizeof T <= size_ s ->
  alloc T n s = Return p s1 out ->
  exec_all cs s1 = Some s2 ->
  is_arena_ptr p s2 = Return true s2 [] /\
  (forall q, p <= q < p + n * sizeof T ->
             is_arena_ptr q s2 = Return true s2 []) /\
  (forall q, ~ (base_ s2 <= q < base_ s2 + size_ s2) ->
             is_arena_ptr q s2 = Return false s2 []).
Proof.
  intros Hok HT Hn Hfit Ha Hcs.
  destruct (alloc_fits T n s Hok HT (Z.lt_le_incl _ _ Hn) Hfit) as (_ & _ & Ha').
  rewrite Ha' in Ha. injection Ha as <- <- <-.
  pose proof (valid_type_align_pos T HT) as Hal.
  pose proof (round_up_bounds (offset_ s) (alignof T) Hal) as Hr.
  assert (Hsz : 0 < n * sizeof T) by (destruct HT as [? _]; nia).
  pose proof (arena_ok_mapping s Hok) as Hmap.
  destruct Hok as (Hb & Ho & Hs & Hnull).
  assert (Hinit : base_ s <> nullptr) by (intros E; specialize (Hnull E); lia).
  destruct (exec_all_keeps_mapping cs _ s2 (Hinit : base_ (set_offset _ s) <> nullptr) Hcs)
    as [Hb2 Hs2].
  cbn [set_offset base_ size_] in Hb2, Hs2.
  assert (Htrue : forall q, base_ s <= q < base_ s + size_ s ->
                            is_arena_ptr q s2 = Return true s2 []).
  { intros q Hq. rewrite is_arena_ptr_eq. f_equal.
    apply is_arena_ptr_range; rewrite Hb2, Hs2; assumption. }
  repeat split.
  - apply Htrue. lia.
  - intros q Hq. apply Htrue. lia.
  - intros q Hq. rewrite is_arena_ptr_eq. f_equal.
    apply not_true_is_false. intros Ht. apply Hq.
    apply is_arena_ptr_range in Ht; [exact Ht | rewrite Hb2, Hs2; assumption].
Qed.

(** Four bytes at offset 80 of the example arena, tested after an
    allocation that follows. *)
Lemma allocation_stays_in_arena_witness :
  is_arena_ptr (example_base + 80) (example_arena 1024 96)
    = Return true (example_arena 1024 96) [] /\
  (forall q, example_base + 80 <= q < example_base + 80 + 1 * sizeof int32_t ->
             is_arena_ptr q (example_arena 1024 96)
               = Return true (example_arena 1024 96) []) /\
  (forall q, ~ (base_ (example_arena 1024 96) <= q
                < base_ (example_arena 1024 96) + size_ (example_arena 1024 96)) ->
             is_arena_ptr q (example_arena 1024 96)
               = Return false (example_arena 1024 96) []).
Proof.
  apply (allocation_stays_in_arena int32_t 1
           (example_arena 1024 80) (example_arena 1024 84)
           (example_arena 1024 96) (example_base + 80) []
           [CallAlloc int64_t 1; CallPrintStats]).
  - apply example_arena_ok; unfold example_base, SIZE_MOD, SIZE_BITS; lia.
  - exact valid_int32_t.
  - lia.
  - vm_compute. discriminate.
  - vm_compute. reflexivity.
  - vm_compute. reflexivity.
Defined.

(** C7: once a call of [init] has returned on a system that keeps the
    contract of [mmap], any later call of [init], after any calls in
    between and whatever its arguments and the state of the system, returns
    without terminating the process, prints the warning and leaves [base_],
    [size_] and [offset_] as they were. *)
Theorem init_twice_is_noop (e1 e2 : os) (pa1 sz1 pa2 sz2 : Z)
        (s0 s1 s2 : arena) (out1 : list diag) (cs : list call) :
  mmap_post e1 pa1 sz1 ->
  init e1 pa1 sz1 s0 = Return tt s1 out1 ->
  exec_all cs s1 = Some s2 ->
  init e2 pa2 sz2 s2 =
    Return tt s2 [Fprintf stderr "DevMemArena::init called twice\n" []].
Proof.
  intros Hpost Hinit Hcs.
  pose proof (init_returns_initialised _ _ _ _ _ _ Hpost Hinit) as Hb.
  destruct (exec_all_keeps_mapping cs s1 s2 Hb Hcs) as [Hb2 _].
  apply init_again. congruence.
Qed.

Lemma init_twice_is_noop_witness :
  init failing_os 0 4096 (example_arena 1024 80) =
    Return tt (example_arena 1024 80)
           [Fprintf stderr "DevMemArena::init called twice\n" []].
Proof.
  apply (init_twice_is_noop example_os failing_os example_phys 1024 0 4096
           static_init (example_arena 1024 0) (example_arena 1024 80)
           [Fprintf stdout
              "DevMemArena: mapped phys 0x%lx (%zu MiB) at virt %p\n"
              [example_phys; 0; example_base]]
           [CallAlloc int64_t 10]).
  - unfold mmap_post. cbv zeta. intros _.
    split; [reflexivity | unfold example_os, example_base, SIZE_MOD, SIZE_BITS; simpl; lia].
  - vm_compute. reflexivity.
  - vm_compute. reflexivity.
Defined.

(** C8: [needed] is the product of the count and the element size modulo
    2^64, and [alloc] terminates the process exactly when the sum of [cur]
    and [needed] modulo 2^64 exceeds the capacity. So there is a count
    whose true byte size exceeds the capacity and for which the wrapped sum
    passes the test and [alloc] returns: 2^61 + 1 elements of 8 bytes, with
    the cursor at 80 of 1024. *)
Theorem alloc_arithmetic_wraps :
  (forall (T : ctype) (n : Z),
     alloc_needed T n = (n * sizeof T) mod 2 ^ 64) /\
  (forall (T : ctype) (n : Z) (s : arena),
     (exists c s' out, alloc T n s = Exit c s' out) <->
     (alloc_cur T s + alloc_needed T n) mod 2 ^ 64 > size_ s) /\
  (exists (T : ctype) (n : Z) (s : arena),
     reachable s /\ valid_type T /\ in_size_t n /\
     n * sizeof T > size_ s /\
     (alloc_cur T s + alloc_needed T n) mod 2 ^ 64 <= size_ s /\
     exists (p : ptr) (s' : arena), alloc T n s = Return p s' []).
Proof.
  split; [reflexivity|]. split; [exact alloc_exit_iff|].
  exists int64_t, (2 ^ 61 + 1), (example_arena 1024 80).
  split; [exact example_arena_1024_80_reachable|].
  split; [exact valid_int64_t|].
  split; [unfold in_size_t, SIZE_MOD, SIZE_BITS; lia|].
  split; [vm_compute; reflexivity|].
  split; [vm_compute; discriminate|].
  exists (example_base + 80), (example_arena 1024 88).
  vm_compute. reflexivity.
Qed.

(** C9: as long as [init] has not been called, whatever other calls were
    made, [base_] is null and [size_] is 0, and [is_arena_ptr] returns
    false for every pointer. *)
Theorem uninitialized_arena_contains_nothing (cs : list call) (s : arena)
        (p : ptr) :
  forallb (fun c => negb (is_init_call c)) cs = true ->
  exec_all cs static_init = Some s ->
  base_ s = nullptr /\ size_ s = 0 /\
  is_arena_ptr p s = Return false s [].
Proof.
  intros Hcs Hex.
  apply exec_all_before_init in Hex; [|assumption]. subst s.
  repeat split.
  rewrite is_arena_ptr_eq. f_equal.
  change (ptr_add (base_ static_init) (size_ static_init)) with 0.
  change (base_ static_init) with 0.
  destruct (Z.ltb_spec p 0); [|apply andb_false_r].
  apply andb_false_intro1. rewrite Z.geb_leb. apply Z.leb_gt. assumption.
Qed.

Lemma uninitialized_arena_contains_nothing_witness :
  base_ static_init = nullptr /\ size_ static_init = 0 /\
  is_arena_ptr example_base static_init = Return false static_init [].
Proof.
  apply (uninitialized_arena_contains_nothing
           [CallAlloc char_t 0; CallPrintStats; CallIsArenaPtr 0]
           static_init example_base).
  - reflexivity.
  - vm_compute. reflexivity.
Defined.

(** C10: [alloc<T>(0)] returns whenever the cursor rounded up to the
    alignment of [T] does not exceed the capacity: the cursor moves to the
    rounded offset, which is not below the old cursor, and the address
    [base_] plus that offset is returned. On an arena that is full at a
    cursor aligned for [T] this address is [base_ + size_] and the arena is
    left as it was. *)
Theorem alloc_zero_count (T : ctype) (s : arena) :
  arena_ok s -> valid_type T ->
  round_up (offset_ s) (alignof T) <= size_ s ->
  alloc T 0 s =
    Return (base_ s + round_up (offset_ s) (alignof T))
           (set_offset (round_up (offset_ s) (alignof T)) s) [] /\
  offset_ s <= round_up (offset_ s) (alignof T) /\
  (offset_ s = size_ s -> offset_ s mod alignof T = 0 ->
   alloc T 0 s = Return (base_ s + size_ s) s []).
Proof.
  intros Hok HT Hfit.
  pose proof (valid_type_align_pos T HT) as Ha.
  assert (Hz : alloc T 0 s =
    Return (base_ s + round_up (offset_ s) (alignof T))
           (set_offset (round_up (offset_ s) (alignof T)) s) []).
  { destruct (alloc_fits T 0 s Hok HT (Z.le_refl 0)) as (_ & _ & H); [lia|].
    rewrite H. now rewrite Z.mul_0_l, Z.add_0_r. }
  split; [exact Hz|]. split; [apply round_up_bounds; assumption|].
  intros Hfull Hal. rewrite Hz.
  rewrite (round_up_aligned _ _ Ha Hal), Hfull.
  f_equal. destruct s as [b sz o]. simpl in *. subst o. reflexivity.
Qed.

(** The cursor at 2 of 1024: an empty request for an 8-byte-aligned type
    moves it to 8. *)
Lemma alloc_zero_count_witness :
  alloc int64_t 0 (example_arena 1024 2) =
    Return (example_base + 8) (example_arena 1024 8) [] /\
  offset_ (example_arena 1024 2) <= 8 /\
  (offset_ (example_arena 1024 2) = size_ (example_arena 1024 2) ->
   offset_ (example_arena 1024 2) mod alignof int64_t = 0 ->
   alloc int64_t 0 (example_arena 1024 2) =
     Return (base_ (example_arena 1024 2) + size_ (example_arena 1024 2))
            (example_arena 1024 2) []).
Proof.
  apply (alloc_zero_count int64_t (example_arena 1024 2)).
  - apply example_arena_ok; unfold example_base, SIZE_MOD, SIZE_BITS; lia.
  - exact valid_int64_t.
  - vm_compute. discriminate.
Defined.

(** ** The scenarios of the specification *)

(** Capacity 1024: ten 8-byte elements, one 4-byte element, then 1000
    more bytes, which exhaust the arena. *)
Example scenario_exhaustion :
  alloc int64_t 10 (example_arena 1024 0)
    = Return example_base (example_arena 1024 80) [] /\
  alloc int32_t 1 (example_arena 1024 80)
    = Return (example_base + 80) (example_arena 1024 84) [] /\
  alloc char_t 1000 (example_arena 1024 84)
    = Exit 1 (example_arena 1024 84)
        [Fprintf stderr
           "DevMemArena: out of memory (need %zu, used %zu / %zu)\n"
           [1000; 84; 1024]].
Proof. repeat split; vm_compute; reflexivity. Qed.

(** Two one-byte elements, then an 8-byte-aligned element at [base_ + 8]. *)
Example scenario_padding :
  alloc_all [(char_t, 1); (char_t, 1); (int64_t, 1)] (example_arena 1024 0)
    = Return [example_base; example_base + 1; example_base + 8]
             (example_arena 1024 16) [].
Proof. vm_compute. reflexivity. Qed.

(** A full arena and an empty request: the returned address is one past
    the end of the mapping. *)
Example scenario_full_arena :
  alloc int64_t 0 (example_arena 1024 1024)
    = Return (example_base + 1024) (example_arena 1024 1024) [] /\
  is_arena_ptr (example_base + 1024) (example_arena 1024 1024)
    = Return false (example_arena 1024 1024) [].
Proof. split; vm_compute; reflexivity. Qed.

(** ** Further properties: [init] *)

(** On an arena that is not initialised, when [open] and [mmap] succeed,
    [init] returns with the mapping as the arena, whatever [size_] and
    [offset_] held, and prints the mapped line with the size in whole MiB.
    The arena is then empty, lies in the address space, and
    [is_arena_ptr] holds exactly of the addresses of the mapping. *)
Theorem init_maps_arena (e : os) (phys_addr size : Z) (s : arena) :
  base_ s = nullptr -> 0 <= os_open e ->
  os_mmap e size (to_off_t phys_addr) <> MAP_FAILED ->
  in_size_t size -> mmap_post e phys_addr size ->
  exists s' : arena,
    init e phys_addr size s =
      Return tt s'
        [Fprintf stdout
           "DevMemArena: mapped phys 0x%lx (%zu MiB) at virt %p\n"
           [phys_addr; size / MiB; os_mmap e size (to_off_t phys_addr)]] /\
    s' = {| base_ := os_mmap e size (to_off_t phys_addr);
            size_ := size; offset_ := 0 |} /\
    base_ s' <> nullptr /\ arena_ok s' /\
    forall p : ptr, exists b : bool,
      is_arena_ptr p s' = Return b s' [] /\
      (b = true <->
       os_mmap e size (to_off_t phys_addr) <= p
         < os_mmap e size (to_off_t phys_addr) + size).
Proof.
  intros Hb Hfd Hm Hsz Hpost.
  destruct (Hpost Hm) as [Hnn Hend]. unfold nullptr, in_size_t in *.
  eexists. split; [|split; [reflexivity|]].
  - unfold init, bind, get. rewrite Hb. cbn [negb Z.eqb nullptr].
    destruct (Z.ltb_spec (os_open e) 0); [lia|].
    destruct (Z.eqb_spec (os_mmap e size (to_off_t phys_addr)) MAP_FAILED);
      [contradiction|].
    cbn [put emit ret app]. rewrite Z.shiftr_div_pow2 by lia. reflexivity.
  - assert (Hok : arena_ok {| base_ := os_mmap e size (to_off_t phys_addr);
                              size_ := size; offset_ := 0 |}).
    { unfold arena_ok, nullptr; cbn [base_ size_ offset_]. lia. }
    split; [cbn [base_]; unfold nullptr; lia|]. split; [exact Hok|].
    intros p. eexists. split; [apply is_arena_ptr_eq|].
    apply (is_arena_ptr_range p _ (arena_ok_mapping _ Hok)).
Qed.

Lemma init_maps_arena_witness :
  exists s' : arena,
    init example_os example_phys 2097152 static_init =
      Return tt s'
        [Fprintf stdout
           "DevMemArena: mapped phys 0x%lx (%zu MiB) at virt %p\n"
           [example_phys; 2097152 / MiB; example_base]] /\
    s' = example_arena 2097152 0 /\
    base_ s' <> nullptr /\ arena_ok s' /\
    forall p : ptr, exists b : bool,
      is_arena_ptr p s' = Return b s' [] /\
      (b = true <-> example_base <= p < example_base + 2097152).
Proof.
  apply (init_maps_arena example_os example_phys 2097152 static_init).
  - reflexivity.
  - vm_compute. discriminate.
  - vm_compute. discriminate.
  - unfold in_size_t, SIZE_MOD, SIZE_BITS. lia.
  - unfold mmap_post. cbv zeta. intros _.
    split; [reflexivity | unfold example_os, example_base, SIZE_MOD, SIZE_BITS;
                          cbn [os_mmap]; lia].
Defined.

(** [init] terminates the process exactly when the arena is not
    initialised and [open] or [mmap] fails; it then exits with status 1
    and has changed none of the static members. *)
Theorem init_exits_on_failure_only (e : os) (phys_addr size : Z) (s : arena) :
  ((exists c s' out, init e phys_addr size s = Exit c s' out) <->
   base_ s = nullptr /\
   (os_open e < 0 \/ os_mmap e size (to_off_t phys_addr) = MAP_FAILED)) /\
  (forall c s' out,
     init e phys_addr size s = Exit c s' out -> c = 1 /\ s' = s).
Proof.
  unfold init, bind, get.
  destruct (Z.eqb_spec (base_ s) nullptr) as [Hb|Hb]; cbn [negb].
  - destruct (Z.ltb_spec (os_open e) 0) as [Hfd|Hfd].
    + cbn [emit exit app]. split.
      * split; [intros _; split; [assumption | left; assumption]
               | intros _; eauto].
      * intros c s' out Hex. inversion Hex. split; reflexivity.
    + destruct (Z.eqb_spec (os_mmap e size (to_off_t phys_addr)) MAP_FAILED)
        as [Hm|Hm].
      * cbn [emit exit app]. split.
        -- split; [intros _; split; [assumption | right; assumption]
                  | intros _; eauto].
        -- intros c s' out Hex. inversion Hex. split; reflexivity.
      * cbn [put emit ret app]. split.
        -- split; [intros (c & s' & out & Hex); discriminate
                  | intros [_ [Hlt | Heq]]; [lia | contradiction]].
        -- intros c s' out Hex. discriminate.
  - cbn [emit ret app]. split.
    + split; [intros (c & s' & out & Hex); discriminate
             | intros [Hn _]; contradiction].
    + intros c s' out Hex. discriminate.
Qed.

(** The first allocation after [init] is served at the mapped address
    itself, whatever the alignment of its type, as long as its bytes fit. *)
Theorem first_alloc_at_mapping (e : os) (phys_addr size : Z) (s : arena)
        (out : list diag) (T : ctype) (n : Z) :
  in_size_t size -> mmap_post e phys_addr size ->
  init e phys_addr size static_init = Return tt s out ->
  valid_type T -> 0 <= n -> n * sizeof T <= size ->
  alloc T n s =
    Return (os_mmap e size (to_off_t phys_addr))
           {| base_ := os_mmap e size (to_off_t phys_addr);
              size_ := size; offset_ := n * sizeof T |} [].
Proof.
  intros Hsz Hpost Hinit HT Hn Hfit.
  unfold init, bind, get in Hinit. cbn [static_init base_ negb Z.eqb nullptr] in Hinit.
  destruct (os_open e <? 0); [discriminate|].
  destruct (Z.eqb_spec (os_mmap e size (to_off_t phys_addr)) MAP_FAILED) as [|Hm];
    [discriminate|].
  cbn [put emit ret app] in Hinit. injection Hinit as <- _.
  destruct (Hpost Hm) as [Hnn Hend]. unfold nullptr, in_size_t in *.
  set (s0 := {| base_ := os_mmap e size (to_off_t phys_addr);
                size_ := size; offset_ := 0 |}).
  assert (Hok : arena_ok s0)
    by (unfold arena_ok, nullptr, s0; cbn [base_ size_ offset_]; lia).
  pose proof (valid_type_align_pos T HT) as Ha.
  assert (Hr : round_up (offset_ s0) (alignof T) = 0).
  { apply round_up_aligned; [assumption|]. apply Z.mod_0_l. lia. }
  destruct (alloc_fits T n s0 Hok HT Hn) as (_ & _ & Hal).
  - rewrite Hr. cbn [s0 size_]. lia.
  - rewrite Hal, Hr. unfold s0, set_offset; cbn [base_ size_ offset_].
    now rewrite Z.add_0_r, Z.add_0_l.
Qed.

Lemma first_alloc_at_mapping_witness :
  alloc overaligned_t 2 (example_arena 16384 0) =
    Return example_base (example_arena 16384 16384) [].
Proof.
  apply (first_alloc_at_mapping example_os example_phys 16384
           (example_arena 16384 0)
           [Fprintf stdout
              "DevMemArena: mapped phys 0x%lx (%zu MiB) at virt %p\n"
              [example_phys; 0; example_base]]
           overaligned_t 2).
  - unfold in_size_t, SIZE_MOD, SIZE_BITS. lia.
  - unfold mmap_post. cbv zeta. intros _.
    split; [reflexivity | unfold example_os, example_base, SIZE_MOD, SIZE_BITS;
                          cbn [os_mmap]; lia].
  - vm_compute. reflexivity.
  - exact valid_overaligned_t.
  - lia.
  - vm_compute. discriminate.
Defined.

(** ** Further properties: [alloc] *)

(** As long as [init] has not been called, whatever other calls were
    made, a request of at least one byte terminates the process: the
    capacity is 0 and the diagnostic reports the request against 0 used
    of 0. No memory is ever handed out from a null base. *)
Theorem alloc_before_init_exits (cs : list call) (s : arena)
        (T : ctype) (n : Z) :
  forallb (fun c => negb (is_init_call c)) cs = true ->
  exec_all cs static_init = Some s ->
  valid_type T -> 0 < n -> n * sizeof T < SIZE_MOD ->
  alloc T n s =
    Exit 1 s [Fprintf stderr
                "DevMemArena: out of memory (need %zu, used %zu / %zu)\n"
                [n * sizeof T; 0; 0]].
Proof.
  intros Hcs Hex HT Hn Hlt.
  apply exec_all_before_init in Hex; [|assumption]. subst s.
  pose proof (valid_type_align_pos T HT) as Ha.
  assert (Hok : arena_ok static_init).
  { unfold arena_ok, static_init, nullptr, SIZE_MOD, SIZE_BITS;
      cbn [base_ size_ offset_]. lia. }
  assert (Hr : round_up (offset_ static_init) (alignof T) = 0).
  { apply round_up_aligned; [assumption|]. apply Z.mod_0_l. lia. }
  assert (Hsz : 0 < n * sizeof T) by (destruct HT as [? _]; nia).
  rewrite (alloc_exhausted T n static_init Hok HT (Z.lt_le_incl _ _ Hn)).
  - rewrite Hr. reflexivity.
  - rewrite Hr. lia.
  - rewrite Hr. cbn [static_init size_]. lia.
Qed.

Lemma alloc_before_init_exits_witness :
  alloc int64_t 10 static_init =
    Exit 1 static_init
      [Fprintf stderr
         "DevMemArena: out of memory (need %zu, used %zu / %zu)\n"
         [10 * sizeof int64_t; 0; 0]].
Proof.
  apply (alloc_before_init_exits [CallPrintStats; CallAlloc int32_t 0]
           static_init int64_t 10).
  - reflexivity.
  - vm_compute. reflexivity.
  - exact valid_int64_t.
  - lia.
  - vm_compute. reflexivity.
Defined.

(** In every reachable state, wrap-around or not, the cursor lies in the
    capacity, the capacity is a [size_t], the mapping ends inside the
    address space, and an arena without mapping is empty. *)
Theorem reachable_arena_invariant (s : arena) :
  reachable s ->
  0 <= offset_ s <= size_ s /\ size_ s < SIZE_MOD /\
  0 <= base_ s /\ base_ s + size_ s < SIZE_MOD /\
  (base_ s = nullptr -> size_ s = 0 /\ offset_ s = 0).
Proof.
  intros H. destruct (reachable_ok s H) as (Hb & Ho & Hs & Hnull).
  repeat split; lia.
Qed.

Lemma reachable_arena_invariant_witness :
  0 <= offset_ (example_arena 1024 80) <= size_ (example_arena 1024 80) /\
  size_ (example_arena 1024 80) < SIZE_MOD /\
  0 <= base_ (example_arena 1024 80) /\
  base_ (example_arena 1024 80) + size_ (example_arena 1024 80) < SIZE_MOD /\
  (base_ (example_arena 1024 80) = nullptr ->
   size_ (example_arena 1024 80) = 0 /\ offset_ (example_arena 1024 80) = 0).
Proof.
  apply (reachable_arena_invariant (example_arena 1024 80)).
  exact example_arena_1024_80_reachable.
Defined.

(** The scenario of the specification as a step: ten 8-byte elements move
    the cursor from 0 to 80. *)
Lemma cursor_monotone_without_wrap_witness :
  offset_ (example_arena 1024 0) <= offset_ (example_arena 1024 80).
Proof.
  apply (cursor_monotone_without_wrap (CallAlloc int64_t 10)
           (example_arena 1024 0) (example_arena 1024 80)).
  - apply example_arena_ok; unfold example_base, SIZE_MOD, SIZE_BITS; lia.
  - split; [exact valid_int64_t | unfold in_size_t, SIZE_MOD, SIZE_BITS; lia].
  - intros T n E. injection E as <- <-. vm_compute. reflexivity.
  - vm_compute. reflexivity.
Defined.

(** [alloc] never terminates the process on a request that fits: when it
    exits, the cursor rounded up plus the bytes requested does exceed the
    capacity. It exits with status 1, has changed none of the static
    members, and has printed one line on stderr with the values of
    [needed], [cur] and [size_]. *)
Theorem alloc_exit_only_when_exceeding (T : ctype) (n : Z) (s s' : arena)
        (c : Z) (out : list diag) :
  arena_ok s -> valid_type T -> 0 <= n ->
  alloc T n s = Exit c s' out ->
  size_ s < round_up (offset_ s) (alignof T) + n * sizeof T /\
  c = 1 /\ s' = s /\
  out = [Fprintf stderr
           "DevMemArena: out of memory (need %zu, used %zu / %zu)\n"
           [alloc_needed T n; alloc_cur T s; size_ s]].
Proof.
  intros Hok HT Hn Hex. split.
  - destruct (Z_le_gt_dec (round_up (offset_ s) (alignof T) + n * sizeof T) (size_ s))
      as [Hfit|Hover]; [|lia].
    destruct (alloc_fits T n s Hok HT Hn Hfit) as (_ & _ & Ha).
    rewrite Ha in Hex. discriminate.
  - now apply alloc_exit_unchanged.
Qed.

Lemma alloc_exit_only_when_exceeding_witness :
  size_ (example_arena 1024 84)
    < round_up (offset_ (example_arena 1024 84)) (alignof char_t)
      + 1000 * sizeof char_t /\
  1 = 1 /\ example_arena 1024 84 = example_arena 1024 84 /\
  [Fprintf stderr
     "DevMemArena: out of memory (need %zu, used %zu / %zu)\n"
     [1000; 84; 1024]] =
  [Fprintf stderr
     "DevMemArena: out of memory (need %zu, used %zu / %zu)\n"
     [alloc_needed char_t 1000; alloc_cur char_t (example_arena 1024 84);
      size_ (example_arena 1024 84)]].
Proof.
  apply (alloc_exit_only_when_exceeding char_t 1000
           (example_arena 1024 84) (example_arena 1024 84) 1).
  - apply example_arena_ok; unfold example_base, SIZE_MOD, SIZE_BITS; lia.
  - exact valid_char_t.
  - lia.
  - vm_compute. reflexivity.
Defined.

(** The third request of the scenario of the specification: 1000 bytes
    with the cursor at 84 of 1024. *)
Lemma alloc_exit_iff_without_wrap_witness :
  (exists c s' out, alloc char_t 1000 (example_arena 1024 84) = Exit c s' out) <->
  round_up (offset_ (example_arena 1024 84)) (alignof char_t)
    + 1000 * sizeof char_t > size_ (example_arena 1024 84).
Proof.
  apply (alloc_exit_iff_without_wrap char_t 1000 (example_arena 1024 84)).
  - apply example_arena_ok; unfold example_base, SIZE_MOD, SIZE_BITS; lia.
  - exact valid_char_t.
  - lia.
  - vm_compute. reflexivity.
Defined.

(** Two requests for the same type in a row are served without padding
    between them, as one request for both counts would be: the second
    address is the first plus the bytes of the first request. The size of
    a C++ type is a multiple of its alignment. *)
Theorem alloc_same_type_contiguous (T : ctype) (n m : Z) (s : arena) :
  arena_ok s -> valid_type T -> (alignof T | sizeof T) ->
  0 <= n -> 0 <= m ->
  round_up (offset_ s) (alignof T) + (n + m) * sizeof T <= size_ s ->
  alloc_all [(T, n); (T, m)] s =
    Return [base_ s + round_up (offset_ s) (alignof T);
            base_ s + round_up (offset_ s) (alignof T) + n * sizeof T]
           (set_offset (round_up (offset_ s) (alignof T) + (n + m) * sizeof T) s)
           [] /\
  alloc T (n + m) s =
    Return (base_ s + round_up (offset_ s) (alignof T))
           (set_offset (round_up (offset_ s) (alignof T) + (n + m) * sizeof T) s)
           [].
Proof.
  intros Hok HT Hdiv Hn Hm Hfit.
  pose proof (valid_type_align_pos T HT) as Ha.
  pose proof (round_up_bounds (offset_ s) (alignof T) Ha) as Hr.
  destruct (round_up_least (offset_ s) (alignof T) Ha) as (Hrdiv & _).
  assert (Hs : 0 < sizeof T) by (destruct HT as [? _]; lia).
  split.
  - set (c1 := round_up (offset_ s) (alignof T) + n * sizeof T).
    destruct (alloc_fits T n s Hok HT Hn) as (_ & _ & Ha1); [nia|].
    fold c1 in Ha1.
    assert (Hok1 : arena_ok (set_offset c1 s)).
    { destruct Hok as (Hb & Ho & Hsz & Hnull).
      unfold arena_ok, set_offset; cbn [base_ size_ offset_].
      repeat split; try assumption; unfold c1; nia. }
    assert (Hc1 : round_up (offset_ (set_offset c1 s)) (alignof T) = c1).
    { cbn [set_offset offset_]. apply round_up_aligned; [assumption|].
      apply Z.mod_divide; [lia|]. unfold c1.
      apply Z.divide_add_r; [assumption|]. now apply Z.divide_mul_r. }
    destruct (alloc_fits T m (set_offset c1 s) Hok1 HT Hm) as (_ & _ & Ha2).
    { rewrite Hc1. cbn [set_offset size_]. unfold c1. lia. }
    rewrite Hc1 in Ha2.
    cbn [alloc_all]. unfold bind, ret. rewrite Ha1. cbv beta iota.
    rewrite Ha2. cbv beta iota.
    unfold set_offset; cbn [base_ size_ offset_ app]. unfold c1.
    rewrite Z.add_assoc. do 2 f_equal. lia.
  - destruct (alloc_fits T (n + m) s Hok HT) as (_ & _ & Ha3); [lia | lia |].
    exact Ha3.
Qed.

Lemma alloc_same_type_contiguous_witness :
  alloc_all [(int64_t, 3); (int64_t, 4)] (example_arena 1024 2) =
    Return [example_base + 8; example_base + 8 + 3 * sizeof int64_t]
           (example_arena 1024 64) [] /\
  alloc int64_t (3 + 4) (example_arena 1024 2) =
    Return (example_base + 8) (example_arena 1024 64) [].
Proof.
  apply (alloc_same_type_contiguous int64_t 3 4 (example_arena 1024 2)).
  - apply example_arena_ok; unfold example_base, SIZE_MOD, SIZE_BITS; lia.
  - exact valid_int64_t.
  - exists 1. reflexivity.
  - lia.
  - lia.
  - vm_compute. discriminate.
Defined.

Lemma spec_extents_within_budget (reqs : list (ctype * Z)) (c : Z) :
  Forall req_ok reqs ->
  sum (spec_extents c reqs) <= sum (map request_budget reqs).
Proof.
  intros H. revert c. induction H as [|r reqs Hr _ IH]; intros c; simpl.
  - lia.
  - specialize (IH (c + aligned_extent c r)).
    destruct Hr as [HT _].
    pose proof (round_up_bounds c _ (valid_type_align_pos _ HT)).
    unfold aligned_extent, request_budget, request_bytes in *. lia.
Qed.

Lemma spec_starts_length (reqs : list (ctype * Z)) (c : Z) :
  List.length (spec_starts c reqs) = List.length reqs.
Proof.
  revert c. induction reqs as [|r reqs IH]; intros c; simpl;
    [reflexivity | now rewrite IH].
Qed.

(** A budget that suffices whatever the cursor: when the bytes of the
    requests plus, for each, its alignment less one fit in what is left of
    the arena, every request is served, in order and without output. *)
Theorem alloc_all_within_budget (reqs : list (ctype * Z)) (s : arena) :
  arena_ok s -> Forall req_ok reqs ->
  offset_ s + sum (map request_budget reqs) <= size_ s ->
  exists (ps : list ptr) (s' : arena),
    alloc_all reqs s = Return ps s' [] /\
    List.length ps = List.length reqs /\
    offset_ s <= offset_ s' <= offset_ s + sum (map request_budget reqs).
Proof.
  intros Hok Hreqs Hfit.
  pose proof (spec_extents_within_budget reqs (offset_ s) Hreqs) as Hle.
  pose proof (spec_extents_nonneg reqs (offset_ s) Hreqs) as Hnn.
  exists (map (Z.add (base_ s)) (spec_starts (offset_ s) reqs)).
  exists (set_offset (offset_ s + sum (spec_extents (offset_ s) reqs)) s).
  split; [|split].
  - apply alloc_all_fits; [assumption | assumption | lia].
  - rewrite length_map. apply spec_starts_length.
  - cbn [set_offset offset_]. lia.
Qed.

Lemma alloc_all_within_budget_witness :
  exists (ps : list ptr) (s' : arena),
    alloc_all [(char_t, 3); (int64_t, 2); (int32_t, 5)] (example_arena 64 10)
      = Return ps s' [] /\
    List.length ps = 3%nat /\
    10 <= offset_ s'
       <= 10 + sum (map request_budget [(char_t, 3); (int64_t, 2); (int32_t, 5)]).
Proof.
  apply (alloc_all_within_budget [(char_t, 3); (int64_t, 2); (int32_t, 5)]
           (example_arena 64 10)).
  - apply example_arena_ok; unfold example_base, SIZE_MOD, SIZE_BITS; lia.
  - constructor; [split; [exact valid_char_t | simpl; lia]|].
    constructor; [split; [exact valid_int64_t | simpl; lia]|].
    constructor; [split; [exact valid_int32_t | simpl; lia]|].
    constructor.
  - vm_compute. discriminate.
Defined.

(** The wrap-around at its worst: on any arena with a cursor above 0, a
    request for 2^64 minus the cursor one-byte elements is served at the
    cursor and sets the cursor back to 0, so that every byte handed out
    before is handed out again by the requests that follow. *)
Theorem alloc_wrap_resets_cursor (s : arena) :
  arena_ok s -> 0 < offset_ s ->
  alloc char_t (SIZE_MOD - offset_ s) s =
    Return (base_ s + offset_ s) (set_offset 0 s) [].
Proof.
  intros Hok Hpos.
  pose proof Hok as (Hb & Ho & Hs & _).
  assert (Hcur : alloc_cur char_t s = offset_ s).
  { rewrite alloc_cur_round_up.
    - apply round_up_aligned; [reflexivity | apply Z.mod_1_r].
    - exact valid_char_t.
    - lia.
    - cbn [char_t alignof]. lia. }
  assert (Hneed : alloc_needed char_t (SIZE_MOD - offset_ s) = SIZE_MOD - offset_ s).
  { unfold alloc_needed, size_mul. cbn [char_t sizeof].
    rewrite Z.mul_1_r. apply wrap_small. lia. }
  rewrite alloc_eq, Hcur, Hneed.
  assert (Hsum : size_add (offset_ s) (SIZE_MOD - offset_ s) = 0).
  { unfold size_add, wrap.
    replace (offset_ s + (SIZE_MOD - offset_ s)) with SIZE_MOD by lia.
    apply Z.mod_same. pose proof SIZE_MOD_pos. lia. }
  rewrite Hsum.
  destruct (Z.gtb_spec 0 (size_ s)); [lia|].
  unfold ptr_add. rewrite wrap_small by lia. reflexivity.
Qed.

Lemma alloc_wrap_resets_cursor_witness :
  alloc char_t (SIZE_MOD - 84) (example_arena 1024 84) =
    Return (example_base + 84) (example_arena 1024 0) [].
Proof.
  apply (alloc_wrap_resets_cursor (example_arena 1024 84)).
  - apply example_arena_ok; unfold example_base, SIZE_MOD, SIZE_BITS; lia.
  - reflexivity.
Defined.

(** Whenever [alloc] returns, wrap-around or not and whatever the state
    of the arena, the offset it serves is a multiple of the alignment of
    the type, and so is the returned address when [base_] is. *)
Theorem alloc_returns_aligned (T : ctype) (n : Z) (s s' : arena)
        (p : ptr) (out : list diag) :
  valid_type T ->
  alloc T n s = Return p s' out ->
  (alignof T | alloc_cur T s) /\
  p = ptr_add (base_ s) (alloc_cur T s) /\
  ((alignof T | base_ s) -> (alignof T | p)).
Proof.
  intros HT Ha. rewrite alloc_eq in Ha.
  destruct (size_add (alloc_cur T s) (alloc_needed T n) >? size_ s);
    [discriminate|].
  injection Ha as <- _ _.
  assert (Hcur : (alignof T | alloc_cur T s)).
  { destruct HT as [_ (k & Hk & Hal)]. unfold alloc_cur. rewrite Hal.
    unfold size_sub at 1.
    rewrite mask_low_bits by (assumption || apply wrap_range).
    apply Z.divide_factor_r. }
  split; [exact Hcur|]. split; [reflexivity|].
  intros Hbase. unfold ptr_add, wrap.
  rewrite Z.mod_eq by (pose proof SIZE_MOD_pos; lia).
  apply Z.divide_sub_r; [now apply Z.divide_add_r|].
  apply Z.divide_mul_l.
  destruct HT as [_ (k & Hk & ->)]. unfold SIZE_MOD.
  exists (2 ^ (SIZE_BITS - k)). rewrite <- Z.pow_add_r by lia. f_equal. lia.
Qed.

(** The wrapped request of 2^61 - 1 eight-byte elements at cursor 84: the
    offset served is 88. *)
Lemma alloc_returns_aligned_witness :
  (alignof int64_t | alloc_cur int64_t (example_arena 1024 84)) /\
  example_base + 88 =
    ptr_add (base_ (example_arena 1024 84))
            (alloc_cur int64_t (example_arena 1024 84)) /\
  ((alignof int64_t | base_ (example_arena 1024 84)) ->
   (alignof int64_t | example_base + 88)).
Proof.
  apply (alloc_returns_aligned int64_t (2 ^ 61 - 1)
           (example_arena 1024 84) (example_arena 1024 80)
           (example_base + 88) []).
  - exact valid_int64_t.
  - vm_compute. reflexivity.
Defined.

(** ** Further properties: [is_arena_ptr] and [print_stats] *)

(** On an initialised arena no sequence of calls, a further [init] and
    wrapped requests included, changes the mapping, so [is_arena_ptr]
    answers the same for every pointer before and after. *)
Theorem membership_stable (cs : list call) (s s' : arena) :
  base_ s <> nullptr -> exec_all cs s = Some s' ->
  base_ s' = base_ s /\ size_ s' = size_ s /\
  forall p : ptr, exists b : bool,
    is_arena_ptr p s = Return b s [] /\ is_arena_ptr p s' = Return b s' [].
Proof.
  intros Hb Hcs.
  destruct (exec_all_keeps_mapping cs s s' Hb Hcs) as [Hb' Hs'].
  split; [exact Hb'|]. split; [exact Hs'|].
  intros p. eexists. split; [apply is_arena_ptr_eq|].
  rewrite is_arena_ptr_eq, Hb', Hs'. reflexivity.
Qed.

Lemma membership_stable_witness :
  base_ (example_arena 1024 72) = base_ (example_arena 1024 0) /\
  size_ (example_arena 1024 72) = size_ (example_arena 1024 0) /\
  forall p : ptr, exists b : bool,
    is_arena_ptr p (example_arena 1024 0)
      = Return b (example_arena 1024 0) [] /\
    is_arena_ptr p (example_arena 1024 72)
      = Return b (example_arena 1024 72) [].
Proof.
  apply (membership_stable
           [CallAlloc int64_t 10; CallInit failing_os 0 4096;
            CallAlloc int64_t (2 ^ 61 - 1); CallPrintStats]
           (example_arena 1024 0) (example_arena 1024 72)).
  - vm_compute. discriminate.
  - vm_compute. reflexivity.
Defined.

(** The null pointer is never an arena pointer, before [init] or after:
    code that releases a buffer it never allocated takes the heap path. *)
Theorem null_is_not_arena_ptr (s : arena) :
  arena_ok s -> is_arena_ptr nullptr s = Return false s [].
Proof.
  intros Hok. rewrite is_arena_ptr_eq. f_equal.
  apply not_true_is_false. intros Ht.
  apply (is_arena_ptr_range nullptr s (arena_ok_mapping s Hok)) in Ht.
  destruct Hok as (Hb & _ & _ & Hnull). unfold nullptr in *.
  assert (E : base_ s = 0) by lia. specialize (Hnull E). lia.
Qed.

Lemma null_is_not_arena_ptr_witness :
  is_arena_ptr nullptr (example_arena 1024 84)
    = Return false (example_arena 1024 84) [].
Proof.
  apply (null_is_not_arena_ptr (example_arena 1024 84)).
  apply example_arena_ok; unfold example_base, SIZE_MOD, SIZE_BITS; lia.
Defined.

(** [print_stats] changes nothing and prints one line on stdout with the
    cursor and the capacity in whole MiB, rounded down, the first never
    above the second: an arena below one MiB reports 0 of 0 however full
    it is. *)
Theorem print_stats_reports (s : arena) :
  arena_ok s ->
  print_stats s =
    Return tt s [Fprintf stdout "DevMemArena: used %zu MiB / %zu MiB\n"
                   [offset_ s / MiB; size_ s / MiB]] /\
  0 <= offset_ s / MiB <= size_ s / MiB /\
  (size_ s < MiB -> offset_ s / MiB = 0 /\ size_ s / MiB = 0).
Proof.
  intros (_ & Ho & _ & _).
  assert (HM : 0 < MiB) by reflexivity.
  split; [|split].
  - unfold print_stats, bind, get, emit. cbn [app].
    rewrite !Z.shiftr_div_pow2 by lia. reflexivity.
  - split; [apply Z.div_pos; lia | apply Z.div_le_mono; lia].
  - intros Hlt. split; apply Z.div_small; lia.
Qed.

Lemma print_stats_reports_witness :
  print_stats (example_arena 3145728 2097151) =
    Return tt (example_arena 3145728 2097151)
      [Fprintf stdout "DevMemArena: used %zu MiB / %zu MiB\n"
         [offset_ (example_arena 3145728 2097151) / MiB;
          size_ (example_arena 3145728 2097151) / MiB]] /\
  0 <= offset_ (example_arena 3145728 2097151) / MiB
    <= size_ (example_arena 3145728 2097151) / MiB /\
  (size_ (example_arena 3145728 2097151) < MiB ->
   offset_ (example_arena 3145728 2097151) / MiB = 0 /\
   size_ (example_arena 3145728 2097151) / MiB = 0).
Proof.
  apply (print_stats_reports (example_arena 3145728 2097151)).
  apply example_arena_ok; unfold example_base, SIZE_MOD, SIZE_BITS; lia.
Defined.
